(** * The artwork table of [src/frontend/src/App.tsx]

    A shallow embedding of the stateful core of the [App] component: the
    seven [useState] cells, the page fetch run by [useEffect], the paginator
    handler, the "select first N" form handler and the selection handler,
    followed by the properties of the specification that concern them.

    Conventions of the embedding.
    - JavaScript numbers that the component handles (record ids, page
      numbers, counts) are integers; they are modelled by [Z], exactly.
      A JavaScript number is a double: an integer of absolute value up to
      2^53 is the number itself, beyond that it is rounded.  The rounding
      is not modelled, and the statements that give the value of a parsed
      number carry the bound.
    - JavaScript strings are sequences of UTF-16 code units ([list N]).
    - A [Set<number>] is a [gset Z].  [Set.prototype.forEach] visits the
      members once each; the callbacks used here (deleting from and adding
      to another set) commute, so the visiting order is immaterial and
      [set_fold] is used for it.
    - An [async] function is cut at its first [await]: the part before it
      runs when the event is handled, the part after it runs when the
      request settles, with the outcome of the request as an argument.
      Both parts are computations in a state monad with exceptions that
      also records the observable effects (alerts, console messages,
      requests). *)

From stdpp Require Import gmap list strings pretty.

#[local] Set Warnings "-clear-no-such-hyp".
Local Open Scope Z_scope.

(** ** JavaScript built-ins used by the component *)

Module Js.

(** A string is a sequence of UTF-16 code units. *)
Definition JsString : Type := list N.

Definition of_string (s : string) : JsString :=
  (fun a : Ascii.ascii => Ascii.N_of_ascii a) <$> String.list_ascii_of_string s.

(** WhiteSpace and LineTerminator code points of ECMA-262 (the characters
    [String.prototype.trim] removes). *)
Definition is_white_space (c : N) : bool :=
  bool_decide (c ∈ [0x09; 0x0A; 0x0B; 0x0C; 0x0D; 0x20; 0xA0; 0x1680;
                    0x2028; 0x2029; 0x202F; 0x205F; 0x3000; 0xFEFF]%N)
  || ((0x2000 <=? c)%N && (c <=? 0x200A)%N).

Definition is_digit (c : N) : bool := (48 <=? c)%N && (c <=? 57)%N.

Definition digit_value (c : N) : Z := Z.of_N c - 48.

Fixpoint trim_start (s : JsString) : JsString :=
  match s with
  | c :: s' => if is_white_space c then trim_start s' else s
  | [] => []
  end.

(** The longest prefix made of decimal digits. *)
Fixpoint digit_prefix (s : JsString) : JsString :=
  match s with
  | c :: s' => if is_digit c then c :: digit_prefix s' else []
  | [] => []
  end.

Definition digits_value (ds : JsString) : Z :=
  fold_left (fun acc c => 10 * acc + digit_value c) ds 0.

(** [parseInt(string, 10)], following the steps of ECMA-262: trim leading
    white space, read an optional sign, take the longest prefix of decimal
    digits; [None] is [NaN].  The result is the mathematical integer
    [mathInt] of the algorithm; the number returned is the double nearest
    to it, which is [mathInt] itself up to 2^53 in absolute value. *)
Definition parseInt10 (input : JsString) : option Z :=
  let s := trim_start input in
  let sign := match s with
              | c :: _ => if (c =? 0x2D)%N then -1 else 1
              | [] => 1
              end in
  let s := match s with
           | c :: rest => if (c =? 0x2B)%N || (c =? 0x2D)%N then rest else s
           | [] => s
           end in
  match digit_prefix s with
  | [] => None
  | ds => Some (sign * digits_value ds)
  end.

(** The decimal numeral of an integer: its digits, most significant first,
    without leading zeros, after a minus sign when it is negative. *)
Definition decimal (n : Z) : JsString := of_string (pretty n).

End Js.

(** ** Data model *)

Module Artwork.
Record t : Type := mk {
  id : Z;
  title : string;
  place_of_origin : option string;
  artist_display : string;
  inscriptions : option string;
  date_start : Z;
  date_end : Z
}.
End Artwork.

(** The part of [DataTableStateEvent] that the component uses.  The fields
    [filters] and [multiSortMeta] keep their initial values and are not
    represented. *)
Record LazyState : Type := mkLazyState {
  first : Z;
  rows : Z;
  page : Z;
  sortField : string;
  sortOrder : option Z
}.

Record PaginatorPageChangeEvent : Type := mkPageChange {
  ev_first : Z;
  ev_rows : Z;
  ev_page : Z;
  ev_pageCount : Z
}.

(** The component's state: one field per [useState] cell.  [artworks] is
    typed [Artwork[]] in the source, but it is assigned [result.data] of an
    untyped response, which may be [undefined] ([None]). *)
Record AppState : Type := mkAppState {
  loading : bool;
  artworks : option (list Artwork.t);
  totalRecords : Z;
  selection : gset Z;
  isPanelOpen : bool;
  numToSelect : Js.JsString;
  lazyState : LazyState
}.

Definition initialState : AppState :=
  {| loading := false;
     artworks := Some [];
     totalRecords := 0;
     selection := ∅;
     isPanelOpen := false;
     numToSelect := [];
     lazyState := {| first := 0; rows := 10; page := 0;
                     sortField := ""; sortOrder := None |} |}.

(** ** The remote endpoint *)

(** A GET request on the collection endpoint, given by its query
    parameters ([sort[id]=asc] is fixed). *)
Record Request : Type := mkRequest {
  query_page : Z;
  query_limit : Z;
  query_fields : string
}.

Record Pagination : Type := mkPagination { total : Z }.

(** The value of [await response.json()]: a JSON object whose [data], when
    present, is an array of records and whose [pagination], when present,
    is an object with a numeric [total]. *)
Record ApiResult : Type := mkApiResult {
  data : option (list Artwork.t);
  pagination : option Pagination
}.

Inductive Response : Type :=
  | BadBody                      (* the body is not JSON: [json()] rejects *)
  | JsonBody (result : ApiResult).

Inductive FetchOutcome : Type :=
  | FetchRejected                (* [fetch] rejects: transport failure *)
  | FetchResolved (response : Response).

(** ** Effects *)

Inductive JsError : Type := NetworkError | SyntaxError | TypeError.

Inductive Effect : Type :=
  | PreventDefault
  | Alert (message : string)
  | ConsoleError (message : string)
  | Fetch (request : Request).

Inductive Completion (A : Type) : Type :=
  | Normal (a : A)
  | Thrown (e : JsError).
Arguments Normal {A} a.
Arguments Thrown {A} e.

(** A computation reads and updates the state cells, logs its effects in
    order and completes normally or by throwing. *)
Definition M (A : Type) : Type := AppState → Completion A * AppState * list Effect.

#[global] Instance M_ret : MRet M := fun A a st => (Normal a, st, []).

#[global] Instance M_bind : MBind M := fun A B k c st =>
  match c st with
  | (Normal a, st1, log1) =>
      match k a st1 with
      | (r, st2, log2) => (r, st2, log1 ++ log2)
      end
  | (Thrown e, st1, log1) => (Thrown e, st1, log1)
  end.

Definition throw {A} (e : JsError) : M A := fun st => (Thrown e, st, []).

Definition emit (eff : Effect) : M unit := fun st => (Normal (), st, [eff]).

Definition modify (f : AppState → AppState) : M unit := fun st => (Normal (), f st, []).

Definition read {A} (f : AppState → A) : M A := fun st => (Normal (f st), st, []).

(** [try { body } catch (e) { handler e } finally { final }] *)
Definition try_catch_finally (body : M unit) (handler : JsError → M unit)
    (final : M unit) : M unit := fun st =>
  let '(r1, st1, log1) := body st in
  let '(r2, st2, log2) :=
    match r1 with
    | Normal _ => (r1, st1, log1)
    | Thrown e => let '(r, s, l) := handler e st1 in (r, s, log1 ++ l)
    end in
  let '(r3, st3, log3) := final st2 in
  (match r3 with Normal _ => r2 | Thrown e => Thrown e end, st3, log2 ++ log3).

Definition state_of {A} (r : Completion A * AppState * list Effect) : AppState := r.1.2.
Definition effects_of {A} (r : Completion A * AppState * list Effect) : list Effect := r.2.
Definition completion_of {A} (r : Completion A * AppState * list Effect) : Completion A := r.1.1.

(** The requests among the logged effects. *)
Definition requests (log : list Effect) : list Request :=
  omap (fun eff => match eff with Fetch r => Some r | _ => None end) log.

Definition alerts (log : list Effect) : list string :=
  omap (fun eff => match eff with Alert m => Some m | _ => None end) log.

(** The state setters returned by [useState]. *)
Definition setLoading (b : bool) : M unit := modify (fun st =>
  {| loading := b; artworks := artworks st; totalRecords := totalRecords st;
     selection := selection st; isPanelOpen := isPanelOpen st;
     numToSelect := numToSelect st; lazyState := lazyState st |}).

Definition setArtworks (a : option (list Artwork.t)) : M unit := modify (fun st =>
  {| loading := loading st; artworks := a; totalRecords := totalRecords st;
     selection := selection st; isPanelOpen := isPanelOpen st;
     numToSelect := numToSelect st; lazyState := lazyState st |}).

Definition setTotalRecords (n : Z) : M unit := modify (fun st =>
  {| loading := loading st; artworks := artworks st; totalRecords := n;
     selection := selection st; isPanelOpen := isPanelOpen st;
     numToSelect := numToSelect st; lazyState := lazyState st |}).

(** [setSelection(prevSelection => ...)]: the functional form. *)
Definition setSelection (f : gset Z → gset Z) : M unit := modify (fun st =>
  {| loading := loading st; artworks := artworks st; totalRecords := totalRecords st;
     selection := f (selection st); isPanelOpen := isPanelOpen st;
     numToSelect := numToSelect st; lazyState := lazyState st |}).

Definition setPanelOpen (b : bool) : M unit := modify (fun st =>
  {| loading := loading st; artworks := artworks st; totalRecords := totalRecords st;
     selection := selection st; isPanelOpen := b;
     numToSelect := numToSelect st; lazyState := lazyState st |}).

Definition setNumToSelect (s : Js.JsString) : M unit := modify (fun st =>
  {| loading := loading st; artworks := artworks st; totalRecords := totalRecords st;
     selection := selection st; isPanelOpen := isPanelOpen st;
     numToSelect := s; lazyState := lazyState st |}).

(** [setLazyState(prevState => ...)] *)
Definition setLazyState (f : LazyState → LazyState) : M unit := modify (fun st =>
  {| loading := loading st; artworks := artworks st; totalRecords := totalRecords st;
     selection := selection st; isPanelOpen := isPanelOpen st;
     numToSelect := numToSelect st; lazyState := f (lazyState st) |}).

(** [await fetch(apiUrl)] and [await response.json()] at the moment the
    request settles. *)
Definition await_fetch (outcome : FetchOutcome) : M Response :=
  match outcome with
  | FetchRejected => throw NetworkError
  | FetchResolved response => mret response
  end.

Definition await_json (response : Response) : M ApiResult :=
  match response with
  | BadBody => throw SyntaxError
  | JsonBody result => mret result
  end.

(** ** The page fetch ([useEffect], lines 36-56) *)

(** [lazyState.page ? lazyState.page + 1 : 1]: a number is falsy when it
    is zero. *)
Definition truthy (n : Z) : bool := negb (n =? 0).

Definition apiPage (lazy : LazyState) : Z :=
  if truthy (page lazy) then page lazy + 1 else 1.

Definition pageFields : string :=
  "id,title,place_of_origin,artist_display,inscriptions,date_start,date_end".

Definition pageRequest (lazy : LazyState) : Request :=
  {| query_page := apiPage lazy; query_limit := rows lazy; query_fields := pageFields |}.

(** [fetchArtworks] up to its first [await]: the request is issued. *)
Definition fetchArtworks_start : M unit :=
  setLoading true ;;
  lazy ← read lazyState ;
  emit (Fetch (pageRequest lazy)).

(** [fetchArtworks] from the moment the request settles.  No state cell is
    read or written between the two [await]s, so they are taken together. *)
Definition fetchArtworks_settle (outcome : FetchOutcome) : M unit :=
  try_catch_finally
    (response ← await_fetch outcome ;
     result ← await_json response ;
     setArtworks (data result) ;;
     (* [result.pagination.total] throws when [pagination] is missing *)
     p ← match pagination result with
         | Some p => mret p
         | None => throw TypeError
         end ;
     setTotalRecords (total p))
    (fun e => emit (ConsoleError "Failed to fetch artworks:"))
    (setLoading false).

(** ** The paginator handler (lines 58-65) *)

Definition onPaginatorChange (event : PaginatorPageChangeEvent) : M unit :=
  setLazyState (fun prevState =>
    {| first := ev_first event;
       rows := ev_rows event;
       page := ev_page event;
       sortField := sortField prevState;
       sortOrder := sortOrder prevState |}).

(** ** The "select first N" form (lines 67-98) *)

Definition topNRequest (count : Z) : Request :=
  {| query_page := 1; query_limit := count; query_fields := "id" |}.

(** [handleSelectTopN] up to its first [await].  The result is the [count]
    captured by the suspended function, or [None] when the handler has
    returned.  [isNaN(count) || count <= 0] is the test of the two first
    branches. *)
Definition handleSelectTopN_submit : M (option Z) :=
  emit PreventDefault ;;
  input ← read numToSelect ;
  match Js.parseInt10 input with
  | None =>
      emit (Alert "Please enter a valid positive number.") ;; mret None
  | Some count =>
      if bool_decide (count <= 0) then
        emit (Alert "Please enter a valid positive number.") ;; mret None
      else
        setLoading true ;;
        emit (Fetch (topNRequest count)) ;;
        mret (Some count)
  end.

(** [new Set([...prevSelection, ...idsToSelect])] *)
Definition spread_union (prevSelection : gset Z) (idsToSelect : list Z) : gset Z :=
  list_to_set (elements prevSelection ++ idsToSelect).

(** [handleSelectTopN] from the moment the request settles. *)
Definition handleSelectTopN_settle (outcome : FetchOutcome) : M unit :=
  try_catch_finally
    (response ← await_fetch outcome ;
     result ← await_json response ;
     match data result with
     | Some arts =>
         let idsToSelect := Artwork.id <$> arts in
         setSelection (fun prevSelection => spread_union prevSelection idsToSelect)
     | None => mret ()
     end)
    (fun e =>
       emit (ConsoleError "Failed to fetch artwork IDs for selection:") ;;
       emit (Alert "Could not select artworks. Please try again."))
    (setLoading false ;;
     setNumToSelect [] ;;
     setPanelOpen false).

(** The trigger button and the numeric input (lines 149 and 163). *)
Definition togglePanel : M unit :=
  isOpen ← read isPanelOpen ;
  setPanelOpen (negb isOpen).

Definition onInputChange (value : Js.JsString) : M unit := setNumToSelect value.

(** ** The selection handler (lines 100-125) *)

(** The updater passed to [setSelection]. *)
Definition reconcile (currentPageIds newSelectionIds prevSelection : gset Z) : gset Z :=
  let updatedSelection := prevSelection in
  let updatedSelection :=
    set_fold (fun id acc => if decide (id ∈ newSelectionIds) then acc else acc ∖ {[id]})
             updatedSelection currentPageIds in
  let updatedSelection :=
    set_fold (fun id acc => {[id]} ∪ acc) updatedSelection newSelectionIds in
  updatedSelection.

Definition ids_of (records : list Artwork.t) : gset Z :=
  list_to_set (Artwork.id <$> records).

Definition onSelectionChange (newSelection : list Artwork.t) : M unit :=
  displayed ← read artworks ;
  match displayed with
  | None => throw TypeError       (* [artworks.map] of [undefined] *)
  | Some displayed =>
      let currentPageIds := ids_of displayed in
      let newSelectionIds := ids_of newSelection in
      setSelection (reconcile currentPageIds newSelectionIds)
  end.

(** ** What is handed to the table (line 139) and the label (line 193) *)

Definition selectedRows (displayed : list Artwork.t) (sel : gset Z) : list Artwork.t :=
  filter (fun art => Artwork.id art ∈ sel) displayed.

(** The [selection] property of the table; [None] when evaluating it throws. *)
Definition selectionProp (st : AppState) : option (list Artwork.t) :=
  (fun displayed => selectedRows displayed (selection st)) <$> artworks st.

Definition totalSelected (st : AppState) : nat := size (selection st).

(** ** The component as a transition system *)

Inductive Event : Type :=
  | PageChange (event : PaginatorPageChangeEvent)
  | PageFetchSettled (outcome : FetchOutcome)
  | SelectionChange (newSelection : list Artwork.t)
  | PanelToggle
  | InputChange (value : Js.JsString)
  | Submit
  | TopNSettled (outcome : FetchOutcome).

(** A page change stores the new page state; the effect, whose dependency
    is [lazyState], then starts a fetch. *)
Definition handle (ev : Event) : M unit :=
  match ev with
  | PageChange event => onPaginatorChange event ;; fetchArtworks_start
  | PageFetchSettled outcome => fetchArtworks_settle outcome
  | SelectionChange newSelection => onSelectionChange newSelection
  | PanelToggle => togglePanel
  | InputChange value => onInputChange value
  | Submit => handleSelectTopN_submit ;; mret ()
  | TopNSettled outcome => handleSelectTopN_settle outcome
  end.

Definition step (st : AppState) (ev : Event) : AppState := state_of (handle ev st).

Definition run (evs : list Event) (st : AppState) : AppState := fold_left step evs st.



(** ** Rendering (lines 127-196) *)

(** The string of an integer in a template literal.  Below 10^21 in
    absolute value it is the decimal numeral.  From 10^21 on JavaScript
    prints the exponent notation with the digits of the double, which the
    embedding of numbers as integers does not determine: [None]. *)
Definition number_to_string (n : Z) : option Js.JsString :=
  if bool_decide (Z.abs n < 10 ^ 21) then Some (Js.decimal n) else None.

(** The three code units that stand between the two dates in the source
    text of the template. *)
Definition dateSeparator : Js.JsString := [0xE2; 0x20AC; 0x201C]%N.

Definition dateBodyTemplate (rowData : Artwork.t) : option Js.JsString :=
  match number_to_string (Artwork.date_start rowData),
        number_to_string (Artwork.date_end rowData) with
  | Some startText, Some endText => Some (startText ++ dateSeparator ++ endText)
  | _, _ => None
  end.

(** What the component hands to the table, the form and the paginator. *)
Record View : Type := mkView {
  table_value : list Artwork.t;
  table_loading : bool;
  table_selection : list Artwork.t;
  date_range_cells : list (option Js.JsString);   (* the body template, row by row *)
  panel_input : option Js.JsString;      (* the form exists while the panel is open *)
  paginator_first : Z;
  paginator_rows : Z;
  paginator_totalRecords : Z;
  rowsPerPageOptions : list Z;
  total_selected_label : nat
}.

(** The returned element; [None] when [artworks.filter] throws because the
    displayed page is [undefined]. *)
Definition render (st : AppState) : option View :=
  match artworks st with
  | None => None
  | Some displayed =>
      Some {| table_value := displayed;
              table_loading := loading st;
              table_selection := selectedRows displayed (selection st);
              date_range_cells := dateBodyTemplate <$> displayed;
              panel_input := if isPanelOpen st then Some (numToSelect st) else None;
              paginator_first := first (lazyState st);
              paginator_rows := rows (lazyState st);
              paginator_totalRecords := totalRecords st;
              rowsPerPageOptions := [10; 20; 50];
              total_selected_label := size (selection st) |}
  end.

(** A response whose parsed body carries a [data] array. *)
Definition has_data (ev : Event) : Prop :=
  match ev with
  | PageFetchSettled (FetchResolved (JsonBody result)) => is_Some (data result)
  | _ => True
  end.

Definition complete_page (records : list Artwork.t) (n : Z) : FetchOutcome :=
  FetchResolved (JsonBody {| data := Some records; pagination := Some {| total := n |} |}).

Definition ids_response (records : list Artwork.t) : FetchOutcome :=
  FetchResolved (JsonBody {| data := Some records; pagination := None |}).

(** The identifiers a bulk response contributes to the ledger. *)
Definition response_ids (outcome : FetchOutcome) : gset Z :=
  match outcome with
  | FetchResolved (JsonBody result) =>
      match data result with Some records => ids_of records | None => ∅ end
  | _ => ∅
  end.

(** ** Outcomes and inputs used in the statements *)

(** The request failed in transport or its body could not be decoded. *)
Definition fetch_failed (outcome : FetchOutcome) : bool :=
  match outcome with
  | FetchRejected | FetchResolved BadBody => true
  | FetchResolved (JsonBody _) => false
  end.

Definition invalidAlert : Effect := Alert "Please enter a valid positive number.".

(** The records that the answer to a request delivers, if any. *)
Definition answer_data (outcome : FetchOutcome) : option (list Artwork.t) :=
  match outcome with
  | FetchResolved (JsonBody result) => data result
  | _ => None
  end.



(** A page answer that either failed or carries both [data] and
    [pagination]. *)
Definition page_answer_ok (ev : Event) : Prop :=
  match ev with
  | PageFetchSettled outcome =>
      fetch_failed outcome = true ∨ ∃ records n, outcome = complete_page records n
  | _ => True
  end.

(** The displayed page and the total are the initial ones or those of one
    of the complete answers among [evs]. *)
Definition page_and_total_from (evs : list Event) (st : AppState) : Prop :=
  (artworks st = Some [] ∧ totalRecords st = 0)
  ∨ ∃ records n, PageFetchSettled (complete_page records n) ∈ evs
                 ∧ artworks st = Some records ∧ totalRecords st = n.

(** The identifier [x] was reported by a selection change or returned by a
    bulk answer among [evs]. *)
Definition id_introduced_by (evs : list Event) (x : Z) : Prop :=
  ∃ ev, ev ∈ evs
        ∧ match ev with
          | SelectionChange newSelection => x ∈ ids_of newSelection
          | TopNSettled outcome => x ∈ response_ids outcome
          | _ => False
          end.

(** The shape of an input of the numeric field that has a leading integer
    part. *)
Module ParseInt.
Import Js.

Inductive Sign : Type := NoSign | Plus | Minus.

Definition sign_chars (sg : Sign) : JsString :=
  match sg with NoSign => [] | Plus => [0x2B%N] | Minus => [0x2D%N] end.

Definition sign_factor (sg : Sign) : Z :=
  match sg with Minus => -1 | _ => 1 end.

Definition starts_with_digit (s : JsString) : bool :=
  match s with c :: _ => is_digit c | [] => false end.

(** A string with a leading integer part: white space, an optional sign,
    a nonempty maximal run [ds] of decimal digits, and the rest. *)
Inductive integer_prefix (s : JsString) (sg : Sign) (ds : JsString) : Prop :=
  | IntegerPrefix (white rest : JsString) :
      s = white ++ sign_chars sg ++ ds ++ rest →
      Forall (fun c => is_white_space c = true) white →
      Forall (fun c => is_digit c = true) ds →
      ds ≠ [] →
      starts_with_digit rest = false →
      integer_prefix s sg ds.

End ParseInt.

(** Sample data. *)
Definition art (n : Z) : Artwork.t :=
  Artwork.mk n "Untitled" None "Unknown" None 1900 1901.

Definition page_of (ids : list Z) : option (list Artwork.t) := Some (art <$> ids).

(** A row with the given dates. *)
Definition dated (n dateStart dateEnd : Z) : Artwork.t :=
  Artwork.mk n "Untitled" None "Unknown" None dateStart dateEnd.

Definition sampleState : AppState :=
  {| loading := false;
     artworks := page_of [11; 12; 13];
     totalRecords := 100;
     selection := {[ 1; 2; 11; 12 ]};
     isPanelOpen := true;
     numToSelect := Js.of_string "5abc";
     lazyState := {| first := 10; rows := 10; page := 1;
                     sortField := ""; sortOrder := None |} |}.

Definition sampleEvents : list Event :=
  [ PageChange {| ev_first := 10; ev_rows := 10; ev_page := 1; ev_pageCount := 10 |};
    PageFetchSettled FetchRejected;
    SelectionChange [art 3];
    PageChange {| ev_first := 40; ev_rows := 20; ev_page := 2; ev_pageCount := 5 |};
    PageFetchSettled (FetchResolved (JsonBody {| data := page_of [41; 42];
                                                 pagination := Some {| total := 100 |} |})) ].

Definition withInput (s : string) : AppState :=
  state_of (onInputChange (Js.of_string s) sampleState).

(** * Properties *)

(** ** The selection ledger *)

Section Ledger.
Implicit Types (S pageIds newIds : gset Z) (x : Z).

Lemma delete_pass pageIds newIds S :
  set_fold (fun id acc => if decide (id ∈ newIds) then acc else acc ∖ {[id]}) S pageIds
  = S ∖ (pageIds ∖ newIds).
Proof.
  revert pageIds.
  apply (set_fold_ind_L (fun acc X => acc = S ∖ (X ∖ newIds))).
  - set_solver.
  - intros id X acc Hid ->. case_decide; set_solver.
Qed.

Lemma add_pass newIds S :
  set_fold (fun id acc => {[id]} ∪ acc) S newIds = S ∪ newIds.
Proof.
  revert newIds.
  apply (set_fold_ind_L (fun acc X => acc = S ∪ X)); set_solver.
Qed.

Lemma reconcile_eq pageIds newIds S :
  reconcile pageIds newIds S = (S ∖ (pageIds ∖ newIds)) ∪ newIds.
Proof. unfold reconcile. by rewrite delete_pass, add_pass. Qed.

Lemma spread_union_eq S (ids : list Z) :
  spread_union S ids = S ∪ list_to_set ids.
Proof.
  unfold spread_union. apply set_eq. intros x.
  rewrite elem_of_list_to_set, elem_of_app, elem_of_elements.
  set_solver.
Qed.

End Ledger.

Lemma elem_of_ids_of (records : list Artwork.t) (x : Z) :
  x ∈ ids_of records ↔ ∃ art, art ∈ records ∧ Artwork.id art = x.
Proof.
  unfold ids_of. rewrite elem_of_list_to_set, list_elem_of_fmap. naive_solver.
Qed.

Lemma onSelectionChange_run (st : AppState) (displayed newSelection : list Artwork.t) :
  artworks st = Some displayed →
  onSelectionChange newSelection st =
    setSelection (reconcile (ids_of displayed) (ids_of newSelection)) st.
Proof.
  intros Hd. unfold onSelectionChange, mbind, M_bind, read. by rewrite Hd.
Qed.

(** C1.  Reconciliation.  When the table reports the complete new selection
    of the displayed page (rows of that page), the handler replaces the
    ledger [S] by [(S ∖ (page ∖ new)) ∪ new]: an identifier of [S] leaves
    the ledger exactly when it is on the displayed page and absent from the
    reported selection, every reported identifier is in the ledger, and the
    identifiers that are not on the displayed page are members afterwards
    exactly when they were before.  Nothing else changes and nothing is
    thrown. *)
Theorem onSelectionChange_reconciles
    (st : AppState) (displayed newSelection : list Artwork.t) :
  artworks st = Some displayed →
  ids_of newSelection ⊆ ids_of displayed →
  let S := selection st in
  let r := onSelectionChange newSelection st in
  let S' := selection (state_of r) in
  S' = (S ∖ (ids_of displayed ∖ ids_of newSelection)) ∪ ids_of newSelection
  ∧ (∀ x, x ∈ S → (x ∉ S' ↔ x ∈ ids_of displayed ∧ x ∉ ids_of newSelection))
  ∧ (∀ x, x ∈ ids_of newSelection → x ∈ S')
  ∧ (∀ x, x ∉ ids_of displayed → (x ∈ S' ↔ x ∈ S))
  ∧ completion_of r = Normal ()
  ∧ effects_of r = []
  ∧ artworks (state_of r) = artworks st
  ∧ totalRecords (state_of r) = totalRecords st
  ∧ lazyState (state_of r) = lazyState st.
Proof.
  intros Hd Hsub S r S'.
  assert (HS' : S' = (S ∖ (ids_of displayed ∖ ids_of newSelection)) ∪ ids_of newSelection).
  { subst S' r. rewrite (onSelectionChange_run _ _ _ Hd). cbn. apply reconcile_eq. }
  split; [exact HS'|].
  subst r. rewrite (onSelectionChange_run _ _ _ Hd).
  split; [|split; [|split; [|by repeat split]]]; rewrite HS'.
  - intros x Hx. destruct (decide (x ∈ ids_of displayed));
      destruct (decide (x ∈ ids_of newSelection)); set_solver.
  - set_solver.
  - intros x Hx. set_solver.
Qed.

Lemma onSelectionChange_reconciles_witness :
  selection (state_of (onSelectionChange [art 12; art 13] sampleState)) = {[ 1; 2; 12; 13 ]}.
Proof.
  destruct (onSelectionChange_reconciles sampleState (art <$> [11; 12; 13]) [art 12; art 13])
    as [-> _].
  - reflexivity.
  - apply (bool_decide_unpack _). vm_compute. exact I.
  - apply (bool_decide_unpack _). vm_compute. exact I.
Defined.

(** ** The bulk addition *)

(** The three ways the bulk request can settle. *)
Lemma handleSelectTopN_settle_data (st : AppState) (arts : list Artwork.t)
    (pg : option Pagination) :
  handleSelectTopN_settle (FetchResolved (JsonBody {| data := Some arts; pagination := pg |})) st
  = (Normal (),
     {| loading := false; artworks := artworks st; totalRecords := totalRecords st;
        selection := spread_union (selection st) (Artwork.id <$> arts);
        isPanelOpen := false; numToSelect := []; lazyState := lazyState st |},
     []).
Proof. reflexivity. Qed.

Lemma handleSelectTopN_settle_no_data (st : AppState) (pg : option Pagination) :
  handleSelectTopN_settle (FetchResolved (JsonBody {| data := None; pagination := pg |})) st
  = (Normal (),
     {| loading := false; artworks := artworks st; totalRecords := totalRecords st;
        selection := selection st;
        isPanelOpen := false; numToSelect := []; lazyState := lazyState st |},
     []).
Proof. reflexivity. Qed.

Lemma handleSelectTopN_settle_failed (st : AppState) (outcome : FetchOutcome) :
  fetch_failed outcome = true →
  handleSelectTopN_settle outcome st
  = (Normal (),
     {| loading := false; artworks := artworks st; totalRecords := totalRecords st;
        selection := selection st;
        isPanelOpen := false; numToSelect := []; lazyState := lazyState st |},
     [ConsoleError "Failed to fetch artwork IDs for selection:";
      Alert "Could not select artworks. Please try again."]).
Proof. destruct outcome as [|[|result]]; [reflexivity..|discriminate]. Qed.

(** C2.  Bulk addition.  When the bulk request returns the records [arts],
    the ledger becomes the union of the prior ledger with their
    identifiers; every identifier selected before is still selected,
    whether or not it is among the returned ones. *)
Theorem bulkAdd_is_union (st : AppState) (arts : list Artwork.t) (pg : option Pagination) :
  let r := handleSelectTopN_settle
             (FetchResolved (JsonBody {| data := Some arts; pagination := pg |})) st in
  selection (state_of r) = selection st ∪ ids_of arts
  ∧ selection st ⊆ selection (state_of r)
  ∧ ids_of arts ⊆ selection (state_of r).
Proof.
  cbn zeta. rewrite handleSelectTopN_settle_data. cbn.
  rewrite spread_union_eq. fold (ids_of arts). set_solver.
Qed.

(** Scenario 7 of the specification: an empty ledger and the identifiers
    1 to 15 give a ledger of 15 members. *)
Example bulkAdd_first_15 :
  let st := state_of (handleSelectTopN_settle
              (FetchResolved (JsonBody {| data := page_of (Z.of_nat <$> seq 1 15);
                                         pagination := None |})) initialState) in
  selection st = list_to_set (Z.of_nat <$> seq 1 15) ∧ totalSelected st = 15%nat.
Proof. split; [apply (bool_decide_unpack _)|]; vm_compute; done. Qed.

(** ** The rows marked selected *)

(** C6.  The rows handed to the table as selected are the displayed rows
    whose identifier is in the ledger, in display order; their identifiers
    are the intersection of the ledger with the identifiers of the
    displayed page, so a row whose identifier is not in the ledger is not
    among them. *)
Theorem selectedRows_is_intersection (S : gset Z) (displayed : list Artwork.t) :
  (∀ a, a ∈ selectedRows displayed S ↔ a ∈ displayed ∧ Artwork.id a ∈ S)
  ∧ ids_of (selectedRows displayed S) = S ∩ ids_of displayed
  ∧ selectedRows displayed S `sublist_of` displayed
  ∧ (∀ l t o n z,
       selectionProp {| loading := l; artworks := Some displayed; totalRecords := t;
                        selection := S; isPanelOpen := o; numToSelect := n;
                        lazyState := z |}
       = Some (selectedRows displayed S)).
Proof.
  assert (Hin : ∀ a, a ∈ selectedRows displayed S ↔ a ∈ displayed ∧ Artwork.id a ∈ S).
  { intros a. unfold selectedRows. rewrite list_elem_of_filter. tauto. }
  split; [exact Hin|]. split; [|split].
  - apply set_eq. intros x. rewrite elem_of_intersection, !elem_of_ids_of.
    split.
    + intros (a & Ha & <-). apply Hin in Ha. naive_solver.
    + intros (Hx & a & Ha & <-). exists a. split; [|done]. by apply Hin.
  - apply sublist_filter.
  - reflexivity.
Qed.

Example selectedRows_sample :
  selectionProp sampleState = Some [art 11; art 12].
Proof. vm_compute. reflexivity. Qed.

(** ** The page fetch *)

Lemma fetchArtworks_start_run (st : AppState) :
  fetchArtworks_start st
  = (Normal (),
     {| loading := true; artworks := artworks st; totalRecords := totalRecords st;
        selection := selection st; isPanelOpen := isPanelOpen st;
        numToSelect := numToSelect st; lazyState := lazyState st |},
     [Fetch (pageRequest (lazyState st))]).
Proof. reflexivity. Qed.

(** C5.  The page number of every page request is [pageIndex + 1] when
    [pageIndex] is nonzero and 1 otherwise; with [pageIndex = 0] the request
    asks for page 1.  (Both branches amount to [pageIndex + 1].) *)
Theorem apiPage_one_based (st : AppState) :
  let r := fetchArtworks_start st in
  let pageIndex := page (lazyState st) in
  requests (effects_of r) = [pageRequest (lazyState st)]
  ∧ query_page (pageRequest (lazyState st))
      = (if decide (pageIndex = 0) then 1 else pageIndex + 1)
  ∧ query_page (pageRequest (lazyState st)) = pageIndex + 1
  ∧ query_limit (pageRequest (lazyState st)) = rows (lazyState st)
  ∧ (∀ f r sf so,
       query_page (pageRequest {| first := f; rows := r; page := 0;
                                  sortField := sf; sortOrder := so |}) = 1).
Proof.
  cbn zeta. rewrite fetchArtworks_start_run.
  split; [reflexivity|].
  cbn [pageRequest query_page query_limit]. unfold apiPage, truthy.
  repeat split.
  - case_decide as H; [by rewrite H|].
    destruct (Z.eqb_spec (page (lazyState st)) 0); [done|reflexivity].
  - destruct (Z.eqb_spec (page (lazyState st)) 0) as [->|]; reflexivity.
Qed.

(** Scenario 6 of the specification: mounting requests page 1 with limit 10. *)
Example mount_request :
  requests (effects_of (fetchArtworks_start initialState))
  = [{| query_page := 1; query_limit := 10; query_fields := pageFields |}].
Proof. reflexivity. Qed.

(** A page request that settles with a complete body replaces the displayed
    page and the total together. *)
Lemma fetchArtworks_settle_complete (st : AppState) (d : option (list Artwork.t)) (n : Z) :
  fetchArtworks_settle
    (FetchResolved (JsonBody {| data := d; pagination := Some {| total := n |} |})) st
  = (Normal (),
     {| loading := false; artworks := d; totalRecords := n;
        selection := selection st; isPanelOpen := isPanelOpen st;
        numToSelect := numToSelect st; lazyState := lazyState st |},
     []).
Proof. reflexivity. Qed.

(** A transport failure or a body that is not JSON leaves the displayed page
    and the total as they were, logs the failure and clears the loading
    flag. *)
Lemma fetchArtworks_settle_failed (st : AppState) (outcome : FetchOutcome) :
  fetch_failed outcome = true →
  fetchArtworks_settle outcome st
  = (Normal (),
     {| loading := false; artworks := artworks st; totalRecords := totalRecords st;
        selection := selection st; isPanelOpen := isPanelOpen st;
        numToSelect := numToSelect st; lazyState := lazyState st |},
     [ConsoleError "Failed to fetch artworks:"]).
Proof. destruct outcome as [|[|result]]; [reflexivity..|discriminate]. Qed.

(** A body without [pagination]: [setArtworks(result.data)] has run when
    reading [result.pagination.total] throws, so the displayed page is
    replaced while the total keeps its previous value. *)
Lemma fetchArtworks_settle_no_pagination (st : AppState) (d : option (list Artwork.t)) :
  fetchArtworks_settle (FetchResolved (JsonBody {| data := d; pagination := None |})) st
  = (Normal (),
     {| loading := false; artworks := d; totalRecords := totalRecords st;
        selection := selection st; isPanelOpen := isPanelOpen st;
        numToSelect := numToSelect st; lazyState := lazyState st |},
     [ConsoleError "Failed to fetch artworks:"]).
Proof. reflexivity. Qed.

(** C3.  The page fetch at a body that has neither [data] nor [pagination]
    (the shape of an error answer of the endpoint), while page [11, 12, 13]
    with total 100 is displayed: the function takes its failure branch (the
    failure is logged, the loading flag is cleared), the total is still 100,
    but the displayed page has been replaced by [undefined], after which the
    [selection] property of the table cannot be evaluated.  With a body that
    has [data] and no [pagination], the page is replaced by the new records
    and the total is kept. *)
Theorem fetchArtworks_partial_update :
  let before := state_of (fetchArtworks_start sampleState) in
  let r := fetchArtworks_settle
             (FetchResolved (JsonBody {| data := None; pagination := None |})) before in
  let r' := fetchArtworks_settle
             (FetchResolved (JsonBody {| data := page_of [21]; pagination := None |})) before in
  artworks before = page_of [11; 12; 13]
  ∧ totalRecords before = 100
  ∧ effects_of r = [ConsoleError "Failed to fetch artworks:"]
  ∧ loading (state_of r) = false
  ∧ totalRecords (state_of r) = 100
  ∧ artworks (state_of r) = None
  ∧ selectionProp (state_of r) = None
  ∧ effects_of r' = [ConsoleError "Failed to fetch artworks:"]
  ∧ totalRecords (state_of r') = 100
  ∧ artworks (state_of r') = page_of [21].
Proof. cbn zeta. repeat split. Qed.

(** Scenario 8 of the specification: the request for the second page is
    rejected while the first page is displayed. *)
Example page_fetch_rejected_keeps_page :
  let r := fetchArtworks_settle FetchRejected (state_of (fetchArtworks_start sampleState)) in
  completion_of r = Normal ()
  ∧ loading (state_of r) = false
  ∧ artworks (state_of r) = artworks sampleState
  ∧ totalRecords (state_of r) = totalRecords sampleState.
Proof. cbn zeta. repeat split. Qed.

(** ** Who writes the ledger *)

Lemma handleSelectTopN_submit_selection (st : AppState) :
  selection (state_of (handleSelectTopN_submit st)) = selection st.
Proof.
  unfold handleSelectTopN_submit, mbind, M_bind, emit, read, state_of. cbn.
  destruct (Js.parseInt10 (numToSelect st)) as [count|]; [|reflexivity].
  case_bool_decide; reflexivity.
Qed.

Lemma fetchArtworks_settle_selection (outcome : FetchOutcome) (st : AppState) :
  selection (state_of (fetchArtworks_settle outcome st)) = selection st.
Proof. destruct outcome as [|[|[d [p|]]]]; reflexivity. Qed.

Lemma handleSelectTopN_settle_selection (outcome : FetchOutcome) (st : AppState) :
  selection st ⊆ selection (state_of (handleSelectTopN_settle outcome st)).
Proof.
  destruct outcome as [|[|[[arts|] pg]]]; try done.
  rewrite handleSelectTopN_settle_data. cbn. rewrite spread_union_eq. set_solver.
Qed.

(** C9.  Neither part of the page fetch changes the ledger, whatever the
    outcome of the request; submitting the bulk form does not change it
    either, and when the bulk request settles every identifier of the
    ledger is still in it: the bulk path only adds. *)
Theorem ledger_write_paths :
  (∀ st, selection (state_of (fetchArtworks_start st)) = selection st)
  ∧ (∀ outcome st, selection (state_of (fetchArtworks_settle outcome st)) = selection st)
  ∧ (∀ st, selection (state_of (handleSelectTopN_submit st)) = selection st)
  ∧ (∀ outcome st, selection st ⊆ selection (state_of (handleSelectTopN_settle outcome st))).
Proof.
  split; [reflexivity|].
  split; [exact fetchArtworks_settle_selection|].
  split; [exact handleSelectTopN_submit_selection|].
  exact handleSelectTopN_settle_selection.
Qed.

(** ** The end of the bulk workflow *)

(** C7, as stated, fails when "failure" is a fetch that delivers no
    identifiers: a JSON answer without [data] is skipped by the guard
    [if (result.data)], and then no alert is shown. *)
Lemma no_data_answer_shows_no_alert :
  ¬ (∀ outcome st,
       answer_data outcome = None →
       alerts (effects_of (handleSelectTopN_settle outcome st)) ≠ []).
Proof.
  intros H.
  apply (H (FetchResolved (JsonBody {| data := None; pagination := None |})) sampleState);
    reflexivity.
Qed.

(** C7, amended.  However the bulk request settles, the handler completes
    normally with the loading flag cleared, the numeric input emptied and
    the panel closed.  When the request is rejected or its body is not
    JSON, the failure is logged, the alert is shown and the ledger is as it
    was.  When the body is JSON and has no [data], the ledger is as it was
    too, but nothing is logged and no alert is shown.  When it has [data],
    no alert is shown and the ledger gains the identifiers of the records. *)
Theorem handleSelectTopN_settle_closes :
  (∀ outcome st,
     let r := handleSelectTopN_settle outcome st in
     completion_of r = Normal ()
     ∧ loading (state_of r) = false
     ∧ numToSelect (state_of r) = []
     ∧ isPanelOpen (state_of r) = false)
  ∧ (∀ st,
     let r := handleSelectTopN_settle FetchRejected st in
     effects_of r = [ConsoleError "Failed to fetch artwork IDs for selection:";
                     Alert "Could not select artworks. Please try again."]
     ∧ alerts (effects_of r) = ["Could not select artworks. Please try again."]
     ∧ selection (state_of r) = selection st)
  ∧ (∀ st,
     let r := handleSelectTopN_settle (FetchResolved BadBody) st in
     effects_of r = [ConsoleError "Failed to fetch artwork IDs for selection:";
                     Alert "Could not select artworks. Please try again."]
     ∧ alerts (effects_of r) = ["Could not select artworks. Please try again."]
     ∧ selection (state_of r) = selection st)
  ∧ (∀ st pg,
     let r := handleSelectTopN_settle
                (FetchResolved (JsonBody {| data := None; pagination := pg |})) st in
     effects_of r = []
     ∧ alerts (effects_of r) = []
     ∧ selection (state_of r) = selection st)
  ∧ (∀ st records pg,
     let r := handleSelectTopN_settle
                (FetchResolved (JsonBody {| data := Some records; pagination := pg |})) st in
     effects_of r = []
     ∧ alerts (effects_of r) = []
     ∧ selection (state_of r) = selection st ∪ ids_of records).
Proof.
  split; [intros [|[|[[arts|] pg]]] st; repeat split|].
  split; [intros st; repeat split|].
  split; [intros st; repeat split|].
  split; [intros st pg; repeat split|].
  intros st records pg. cbn zeta. rewrite handleSelectTopN_settle_data.
  repeat split. cbn. apply spread_union_eq.
Qed.

(** ** The page state *)

Section PageState.




End PageState.





(** ** Reading the numeric input *)

Module ParseIntFacts.
Import Js ParseInt.

Lemma digit_not_white (c : N) : is_digit c = true → is_white_space c = false.
Proof.
  unfold is_digit, is_white_space. intros [H1 H2]%andb_true_iff.
  apply N.leb_le in H1, H2.
  apply orb_false_iff. split.
  - apply bool_decide_eq_false. rewrite !elem_of_cons, elem_of_nil. lia.
  - apply andb_false_iff. left. apply N.leb_gt. lia.
Qed.

Lemma digit_not_sign (c : N) :
  is_digit c = true → (c =? 0x2D)%N = false ∧ (c =? 0x2B)%N = false.
Proof.
  unfold is_digit. intros [H1 H2]%andb_true_iff. apply N.leb_le in H1, H2.
  split; apply N.eqb_neq; lia.
Qed.

Lemma trim_start_app (ws s : JsString) :
  Forall (fun c => is_white_space c = true) ws →
  match s with c :: _ => is_white_space c = false | [] => True end →
  trim_start (ws ++ s) = s.
Proof.
  intros Hws Hs. induction Hws as [|c ws Hc _ IH]; cbn.
  - destruct s as [|c s]; [reflexivity|]. cbn. by rewrite Hs.
  - by rewrite Hc.
Qed.

Lemma digit_prefix_app (ds rest : JsString) :
  Forall (fun c => is_digit c = true) ds →
  starts_with_digit rest = false →
  digit_prefix (ds ++ rest) = ds.
Proof.
  intros Hds Hrest. induction Hds as [|c ds Hc _ IH]; cbn.
  - destruct rest as [|c rest]; [reflexivity|]. cbn in *. by rewrite Hrest.
  - by rewrite Hc, IH.
Qed.

Lemma digits_value_from (ds : JsString) (acc : Z) :
  Forall (fun c => is_digit c = true) ds →
  0 ≤ acc →
  0 ≤ fold_left (fun acc c => 10 * acc + digit_value c) ds acc.
Proof.
  intros Hds. revert acc. induction Hds as [|c ds Hc _ IH]; intros acc Hacc; cbn.
  - exact Hacc.
  - apply IH. unfold is_digit in Hc. apply andb_true_iff in Hc as [H1 _].
    apply N.leb_le in H1. unfold digit_value. lia.
Qed.

Lemma digits_value_nonneg (ds : JsString) :
  Forall (fun c => is_digit c = true) ds → 0 ≤ digits_value ds.
Proof. intros Hds. by apply digits_value_from. Qed.

(** [parseInt] of a string with a leading integer part is that integer,
    whatever follows the digits. *)
Lemma parseInt10_integer_prefix (s : JsString) (sg : Sign) (ds : JsString) :
  integer_prefix s sg ds →
  parseInt10 s = Some (sign_factor sg * digits_value ds).
Proof.
  intros [ws rest -> Hws Hds Hne Hmax].
  destruct ds as [|d ds]; [done|].
  pose proof (Forall_inv Hds) as Hd. cbn beta in Hd.
  destruct (digit_not_sign d Hd) as [Hd1 Hd2].
  assert (Hdp : digit_prefix (d :: ds ++ rest) = d :: ds)
    by exact (digit_prefix_app (d :: ds) rest Hds Hmax).
  unfold parseInt10. rewrite trim_start_app; [|done|].
  - destruct sg; cbn [sign_chars sign_factor app].
    + rewrite Hd1, Hd2. cbn [orb]. by rewrite Hdp.
    + change (0x2B =? 0x2D)%N with false. change (0x2B =? 0x2B)%N with true.
      cbn [orb]. by rewrite Hdp.
    + change (0x2D =? 0x2D)%N with true. rewrite orb_true_r. by rewrite Hdp.
  - destruct sg; cbn; [by apply digit_not_white|reflexivity..].
Qed.

Lemma trim_start_split (s : JsString) :
  ∃ ws, s = ws ++ trim_start s ∧ Forall (fun c => is_white_space c = true) ws.
Proof.
  induction s as [|c s (ws & Hs & Hws)]; [by exists []|].
  cbn. destruct (is_white_space c) eqn:Hc.
  - exists (c :: ws). split; [cbn; congruence | by constructor].
  - by exists [].
Qed.

Lemma digit_prefix_split (s : JsString) :
  ∃ rest, s = digit_prefix s ++ rest
          ∧ Forall (fun c => is_digit c = true) (digit_prefix s)
          ∧ starts_with_digit rest = false.
Proof.
  induction s as [|c s (rest & Hs & Hds & Hrest)]; [by exists []|].
  cbn. destruct (is_digit c) eqn:Hc.
  - exists rest. split; [cbn; congruence|]. split; [by constructor | done].
  - exists (c :: s). by repeat split.
Qed.

(** Conversely, [parseInt] yields a number only for a string with a leading
    integer part: [NaN] is the answer exactly when there is none. *)
Lemma parseInt10_Some_inv (s : JsString) (n : Z) :
  parseInt10 s = Some n →
  ∃ sg ds, integer_prefix s sg ds ∧ n = sign_factor sg * digits_value ds.
Proof.
  unfold parseInt10.
  destruct (trim_start_split s) as (ws & Hs & Hws).
  destruct (trim_start s) as [|c t] eqn:Ht; [discriminate|].
  destruct (c =? 0x2B)%N eqn:Hplus; [|destruct (c =? 0x2D)%N eqn:Hminus]; cbn [orb].
  - apply N.eqb_eq in Hplus as ->. change (0x2B =? 0x2D)%N with false. cbv iota.
    destruct (digit_prefix_split t) as (rest & Hrest & Hds & Hmax).
    destruct (digit_prefix t) as [|d ds] eqn:Hdp; [discriminate|].
    intros [= <-]. exists Plus, (d :: ds). split; [|reflexivity].
    apply (IntegerPrefix _ _ _ ws rest); try done.
    by rewrite Hs, Hrest at 1.
  - apply N.eqb_eq in Hminus as ->.
    destruct (digit_prefix_split t) as (rest & Hrest & Hds & Hmax).
    destruct (digit_prefix t) as [|d ds] eqn:Hdp; [discriminate|].
    intros [= <-]. exists Minus, (d :: ds). split; [|reflexivity].
    apply (IntegerPrefix _ _ _ ws rest); try done.
    by rewrite Hs, Hrest at 1.
  - destruct (digit_prefix_split (c :: t)) as (rest & Hrest & Hds & Hmax).
    destruct (digit_prefix (c :: t)) as [|d ds] eqn:Hdp; [discriminate|].
    intros [= <-]. exists NoSign, (d :: ds). split; [|reflexivity].
    apply (IntegerPrefix _ _ _ ws rest); try done.
    cbn [sign_chars app]. by rewrite Hs, Hrest at 1.
Qed.

Lemma parseInt10_NaN_iff (s : JsString) :
  parseInt10 s = None ↔ ¬ ∃ sg ds, integer_prefix s sg ds.
Proof.
  split.
  - intros Hnan (sg & ds & Hip). apply parseInt10_integer_prefix in Hip. congruence.
  - intros Hno. destruct (parseInt10 s) as [n|] eqn:Hp; [|reflexivity].
    destruct (parseInt10_Some_inv s n Hp) as (sg & ds & Hip & _). destruct Hno. eauto.
Qed.

End ParseIntFacts.

(** ** Decimal numerals *)

Section DecimalFacts.
Import Js ParseInt.

Lemma of_string_cons (c : Ascii.ascii) (s : string) :
  of_string (String c s) = Ascii.N_of_ascii c :: of_string s.
Proof. reflexivity. Qed.

Lemma of_string_inj (s1 s2 : string) : of_string s1 = of_string s2 → s1 = s2.
Proof.
  revert s2. induction s1 as [|c1 s1 IH]; intros [|c2 s2]; try done.
  rewrite !of_string_cons. intros [= Hc Hs]. f_equal; [|by apply IH].
  rewrite <- (Ascii.ascii_N_embedding c1), <- (Ascii.ascii_N_embedding c2).
  by rewrite Hc.
Qed.

Lemma pretty_N_char_code (d : N) :
  (d < 10)%N → Ascii.N_of_ascii (pretty_N_char d) = (48 + d)%N.
Proof.
  intros Hd. destruct d as [|p]; [reflexivity|].
  do 4 (try (destruct p as [p|p|]; try reflexivity; try lia)).
Qed.

(** The digits that [pretty_N_go] puts in front of its accumulator. *)
Lemma pretty_N_go_digits (x : N) (s : string) :
  ∃ ds, of_string (pretty_N_go x s) = ds ++ of_string s
        ∧ Forall (fun c => is_digit c = true) ds
        ∧ (∀ acc, fold_left (fun acc c => 10 * acc + digit_value c) ds acc
                  = acc * 10 ^ Z.of_nat (length ds) + Z.of_N x)
        ∧ ((0 < x)%N → ds ≠ []).
Proof.
  revert s. induction (N.lt_wf_0 x) as [x _ IH]. intros s.
  destruct (decide (0 < x)%N) as [Hx|Hx].
  - rewrite pretty_N_go_step by done.
    destruct (IH (x `div` 10)%N (N.div_lt x 10 Hx eq_refl)
                 (String (pretty_N_char (x `mod` 10)%N) s))
      as (ds & Hds & Hdig & Hval & _).
    pose proof (N.mod_lt x 10 (ltac:(done))) as Hmod.
    pose proof (pretty_N_char_code _ Hmod) as Hcode.
    exists (ds ++ [Ascii.N_of_ascii (pretty_N_char (x `mod` 10)%N)]).
    split; [|split; [|split]].
    + rewrite Hds, of_string_cons. by rewrite <- app_assoc.
    + apply Forall_app. split; [done|]. constructor; [|done].
      rewrite Hcode. unfold is_digit. apply andb_true_iff.
      clear -Hmod. revert Hmod. generalize (x `mod` 10)%N. intros m Hm.
      split; apply N.leb_le; lia.
    + intros acc. rewrite fold_left_app, Hval. cbn [fold_left].
      rewrite length_app, Nat2Z.inj_add, Z.pow_add_r by lia. cbn [length].
      unfold digit_value. rewrite Hcode.
      pose proof (f_equal Z.of_N (N.div_mod x 10 (ltac:(done)))) as Hdm.
      rewrite N2Z.inj_add, N2Z.inj_mul in Hdm. change (Z.of_N 10) with 10 in Hdm.
      rewrite N2Z.inj_add. change (Z.of_N 48) with 48.
      change (10 ^ Z.of_nat 1) with 10.
      generalize dependent (Z.of_N (x `div` 10)).
      generalize dependent (Z.of_N (x `mod` 10)).
      generalize (Z.of_N x) (10 ^ Z.of_nat (length ds)).
      intros. lia.
    + intros _. by destruct ds.
  - assert (x = 0%N) as -> by lia. exists []. rewrite pretty_N_go_0.
    repeat split; [constructor | intros acc; cbn; lia | lia].
Qed.

(** The digits of the numeral of a positive integer. *)
Lemma decimal_digits (n : Z) :
  0 < n →
  Forall (fun c => is_digit c = true) (decimal n)
  ∧ decimal n ≠ []
  ∧ ∀ acc, fold_left (fun acc c => 10 * acc + digit_value c) (decimal n) acc
           = acc * 10 ^ Z.of_nat (length (decimal n)) + n.
Proof.
  intros Hn. destruct n as [|p|p]; try lia.
  destruct (pretty_N_go_digits (N.pos p) "") as (ds & Hds & Hdig & Hval & Hne).
  assert (Hdec : decimal (Z.pos p) = ds).
  { unfold decimal. change (pretty (Z.pos p)) with (pretty_N_go (N.pos p) "").
    rewrite Hds. apply app_nil_r. }
  rewrite Hdec. split; [exact Hdig|]. split; [by apply Hne | exact Hval].
Qed.

Lemma zeros_digits (zeros : JsString) :
  Forall (fun c => c = 0x30%N) zeros →
  Forall (fun c => is_digit c = true) zeros
  ∧ fold_left (fun acc c => 10 * acc + digit_value c) zeros 0 = 0.
Proof.
  induction 1 as [|c zeros -> _ [IH1 IH2]]; [by split|].
  split; [by constructor|]. exact IH2.
Qed.

(** [parseInt] reads back an integer from its decimal numeral. *)
Lemma parseInt10_of_decimal (n : Z) (rest : JsString) :
  starts_with_digit rest = false →
  parseInt10 (decimal n ++ rest) = Some n.
Proof.
  intros Hrest. unfold decimal, pretty, pretty_Z.
  destruct n as [|p|p].
  - rewrite (ParseIntFacts.parseInt10_integer_prefix _ NoSign [48%N]); [reflexivity|].
    apply (IntegerPrefix _ _ _ [] rest); try done. repeat constructor.
  - destruct (pretty_N_go_digits (N.pos p) "") as (ds & Hds & Hdig & Hval & Hne).
    change (pretty p) with (pretty_N_go (N.pos p) "").
    rewrite Hds. cbn [of_string fmap list_fmap String.list_ascii_of_string].
    rewrite app_nil_r.
    rewrite (ParseIntFacts.parseInt10_integer_prefix _ NoSign ds).
    + unfold digits_value. rewrite Hval. reflexivity.
    + apply (IntegerPrefix _ _ _ [] rest); try done. by apply Hne.
  - destruct (pretty_N_go_digits (N.pos p) "") as (ds & Hds & Hdig & Hval & Hne).
    change (of_string ("-" +:+ pretty p))
      with (0x2D%N :: of_string (pretty_N_go (N.pos p) "")).
    rewrite Hds. cbn [of_string fmap list_fmap String.list_ascii_of_string].
    rewrite app_nil_r.
    rewrite (ParseIntFacts.parseInt10_integer_prefix _ Minus ds).
    + unfold digits_value. rewrite Hval. reflexivity.
    + apply (IntegerPrefix _ _ _ [] rest); try done. by apply Hne.
Qed.

(** [parseInt] of white space, an optional plus sign, leading zeros and the
    numeral of a positive integer, followed by anything that is not a
    digit. *)
Lemma parseInt10_positive_numeral
    (white zeros rest : JsString) (plus : bool) (n : Z) :
  Forall (fun c => is_white_space c = true) white →
  Forall (fun c => c = 0x30%N) zeros →
  starts_with_digit rest = false →
  0 < n →
  parseInt10 (white ++ (if plus then [0x2B%N] else []) ++ zeros ++ decimal n ++ rest)
  = Some n.
Proof.
  intros Hwhite Hzeros Hrest Hn.
  destruct (decimal_digits n Hn) as (Hdig & Hne & Hval).
  destruct (zeros_digits zeros Hzeros) as [Hzdig Hzval].
  rewrite (ParseIntFacts.parseInt10_integer_prefix _
             (if plus then Plus else NoSign) (zeros ++ decimal n)).
  - unfold digits_value. rewrite fold_left_app, Hzval, Hval.
    rewrite Z.mul_0_l, Z.add_0_l. f_equal. destruct plus; cbn [sign_factor]; lia.
  - apply (IntegerPrefix _ _ _ white rest); try done.
    + destruct plus; cbn [sign_chars]; by rewrite <- !app_assoc.
    + by apply Forall_app.
    + destruct zeros; [done | discriminate].
Qed.

End DecimalFacts.

(** ** Submitting the bulk form *)

Lemma handleSelectTopN_submit_NaN (st : AppState) :
  Js.parseInt10 (numToSelect st) = None →
  handleSelectTopN_submit st = (Normal None, st, [PreventDefault; invalidAlert]).
Proof.
  intros H. unfold handleSelectTopN_submit, mbind, M_bind, emit, read. cbn.
  by rewrite H.
Qed.

Lemma handleSelectTopN_submit_nonpositive (st : AppState) (n : Z) :
  Js.parseInt10 (numToSelect st) = Some n → n ≤ 0 →
  handleSelectTopN_submit st = (Normal None, st, [PreventDefault; invalidAlert]).
Proof.
  intros H Hn. unfold handleSelectTopN_submit, mbind, M_bind, emit, read. cbn.
  rewrite H. by rewrite bool_decide_eq_true_2.
Qed.

Lemma handleSelectTopN_submit_positive (st : AppState) (n : Z) :
  Js.parseInt10 (numToSelect st) = Some n → 0 < n →
  handleSelectTopN_submit st
  = (Normal (Some n),
     {| loading := true; artworks := artworks st; totalRecords := totalRecords st;
        selection := selection st; isPanelOpen := isPanelOpen st;
        numToSelect := numToSelect st; lazyState := lazyState st |},
     [PreventDefault; Fetch (topNRequest n)]).
Proof.
  intros H Hn. unfold handleSelectTopN_submit, mbind, M_bind, emit, read. cbn.
  rewrite H. rewrite bool_decide_eq_false_2 by lia. reflexivity.
Qed.

(** C4.  When the input does not parse to a number, or parses to a value
    that is zero or negative, submitting the form issues no request and
    leaves the whole state as it is (the ledger, the input, the panel): the
    alert is the only thing shown. *)
Theorem handleSelectTopN_rejects_invalid (st : AppState) :
  (Js.parseInt10 (numToSelect st) = None
   ∨ ∃ n, Js.parseInt10 (numToSelect st) = Some n ∧ n ≤ 0) →
  let r := handleSelectTopN_submit st in
  requests (effects_of r) = []
  ∧ state_of r = st
  ∧ selection (state_of r) = selection st
  ∧ numToSelect (state_of r) = numToSelect st
  ∧ isPanelOpen (state_of r) = isPanelOpen st
  ∧ effects_of r = [PreventDefault; Alert "Please enter a valid positive number."]
  ∧ completion_of r = Normal None.
Proof.
  intros Hinv r.
  assert (Hr : r = (Normal None, st, [PreventDefault; invalidAlert])).
  { destruct Hinv as [H | (n & H & Hn)].
    - by apply handleSelectTopN_submit_NaN.
    - by apply (handleSelectTopN_submit_nonpositive st n). }
  rewrite Hr. repeat split.
Qed.

Lemma handleSelectTopN_rejects_invalid_witness :
  (requests (effects_of (handleSelectTopN_submit (withInput "0"))) = []
   ∧ state_of (handleSelectTopN_submit (withInput "0")) = withInput "0")
  ∧ (requests (effects_of (handleSelectTopN_submit (withInput "-5"))) = []
     ∧ state_of (handleSelectTopN_submit (withInput "-5")) = withInput "-5")
  ∧ (requests (effects_of (handleSelectTopN_submit (withInput "abc"))) = []
     ∧ state_of (handleSelectTopN_submit (withInput "abc")) = withInput "abc").
Proof.
  split; [|split].
  - destruct (handleSelectTopN_rejects_invalid (withInput "0")) as (H1 & H2 & _).
    + right. exists 0. split; [reflexivity | lia].
    + exact (conj H1 H2).
  - destruct (handleSelectTopN_rejects_invalid (withInput "-5")) as (H1 & H2 & _).
    + right. exists (-5). split; [reflexivity | lia].
    + exact (conj H1 H2).
  - destruct (handleSelectTopN_rejects_invalid (withInput "abc")) as (H1 & H2 & _).
    + left. reflexivity.
    + exact (conj H1 H2).
Defined.

(** C10.  When the input consists of optional white space, an optional
    plus sign, optional leading zeros and the decimal numeral of a positive
    integer [n] (up to 2^53, where the parsed number is the integer
    itself), followed by anything that does not continue the digits, the
    submission is accepted: nothing is alerted, the loading flag is set and
    the bulk request is issued with limit [n], the state being otherwise
    unchanged.  So "15abc" is sent with limit 15 and "5.9" with limit 5.
    [parseInt] answers [NaN] exactly for the strings without a leading
    integer part (white space, optional sign, at least one digit). *)
Theorem handleSelectTopN_accepts_integer_prefix
    (st : AppState) (white zeros rest : Js.JsString) (plus : bool) (n : Z) :
  Forall (fun c => Js.is_white_space c = true) white →
  Forall (fun c => c = 0x30%N) zeros →
  ParseInt.starts_with_digit rest = false →
  0 < n ≤ 2 ^ 53 →
  numToSelect st
  = white ++ (if plus then [0x2B%N] else []) ++ zeros ++ Js.decimal n ++ rest →
  let r := handleSelectTopN_submit st in
  Js.parseInt10 (numToSelect st) = Some n
  ∧ completion_of r = Normal (Some n)
  ∧ effects_of r = [PreventDefault; Fetch (topNRequest n)]
  ∧ requests (effects_of r)
      = [{| query_page := 1; query_limit := n; query_fields := "id" |}]
  ∧ alerts (effects_of r) = []
  ∧ loading (state_of r) = true
  ∧ selection (state_of r) = selection st
  ∧ numToSelect (state_of r) = numToSelect st
  ∧ isPanelOpen (state_of r) = isPanelOpen st
  ∧ (∀ s, Js.parseInt10 s = None ↔ ¬ ∃ sg ds, ParseInt.integer_prefix s sg ds).
Proof.
  intros Hwhite Hzeros Hrest [Hn _] Hinput r.
  assert (Hp : Js.parseInt10 (numToSelect st) = Some n).
  { rewrite Hinput. by apply parseInt10_positive_numeral. }
  split; [exact Hp|]. subst r.
  rewrite (handleSelectTopN_submit_positive st n Hp Hn).
  repeat split; apply ParseIntFacts.parseInt10_NaN_iff.
Qed.

Lemma handleSelectTopN_accepts_integer_prefix_witness :
  requests (effects_of (handleSelectTopN_submit (withInput "15abc")))
    = [{| query_page := 1; query_limit := 15; query_fields := "id" |}]
  ∧ requests (effects_of (handleSelectTopN_submit (withInput "5.9")))
    = [{| query_page := 1; query_limit := 5; query_fields := "id" |}]
  ∧ requests (effects_of (handleSelectTopN_submit (withInput " +00120 items")))
    = [{| query_page := 1; query_limit := 120; query_fields := "id" |}].
Proof.
  split; [|split].
  - refine (proj1 (proj2 (proj2 (proj2
      (handleSelectTopN_accepts_integer_prefix (withInput "15abc")
         [] [] (Js.of_string "abc") false 15 _ _ _ _ _))))).
    + constructor.
    + constructor.
    + reflexivity.
    + vm_compute. split; [reflexivity | discriminate].
    + reflexivity.
  - refine (proj1 (proj2 (proj2 (proj2
      (handleSelectTopN_accepts_integer_prefix (withInput "5.9")
         [] [] (Js.of_string ".9") false 5 _ _ _ _ _))))).
    + constructor.
    + constructor.
    + reflexivity.
    + vm_compute. split; [reflexivity | discriminate].
    + reflexivity.
  - refine (proj1 (proj2 (proj2 (proj2
      (handleSelectTopN_accepts_integer_prefix (withInput " +00120 items")
         [0x20%N] [0x30%N; 0x30%N] (Js.of_string " items") true 120 _ _ _ _ _))))).
    + repeat constructor.
    + repeat constructor.
    + reflexivity.
    + vm_compute. split; [reflexivity | discriminate].
    + reflexivity.
Defined.

(** * Further properties of the component *)

(** ** Events, requests and state cells *)

(** Case analysis on an event and on what decides the path its handler
    takes. *)
Ltac event_cases st ev :=
  destruct ev as [event | [|[|[d [p|]]]] | newSelection | | value | | [|[|[[arts|] pg]]]];
  unfold step, handle;
  lazymatch goal with
  | |- context [onSelectionChange _ st] =>
      unfold onSelectionChange, mbind, M_bind, read, state_of, effects_of, completion_of;
      destruct (artworks st) as [displayed|] eqn:Hdisplayed
  | |- context [handleSelectTopN_submit] =>
      unfold handleSelectTopN_submit, mbind, M_bind, emit, read,
        state_of, effects_of, completion_of;
      cbn;
      destruct (Js.parseInt10 (numToSelect st)) as [count|] eqn:Hcount;
      [case_bool_decide|]
  | |- _ => idtac
  end.


Lemma step_keeps_cells (st : AppState) (ev : Event) :
  match ev with
  | PageFetchSettled _ => True
  | _ => artworks (step st ev) = artworks st ∧ totalRecords (step st ev) = totalRecords st
  end
  ∧ match ev with
    | SelectionChange _ | TopNSettled _ => True
    | _ => selection (step st ev) = selection st
    end
  ∧ match ev with
    | InputChange _ | TopNSettled _ => True
    | _ => numToSelect (step st ev) = numToSelect st
    end
  ∧ match ev with
    | PanelToggle | TopNSettled _ => True
    | _ => isPanelOpen (step st ev) = isPanelOpen st
    end
  ∧ match ev with
    | SelectionChange _ | PanelToggle | InputChange _ => loading (step st ev) = loading st
    | _ => True
    end.
Proof. event_cases st ev; repeat split; exact Hdisplayed. Qed.

(** X2.  Which state cells an event can write: the displayed page and the total
    only when a page request settles; the ledger only on a selection change
    and when a bulk request settles; the input only when it is edited and
    when a bulk request settles; the panel flag only on a toggle and when a
    bulk request settles; the loading flag never on a selection change, a
    toggle or an edit. *)
Theorem step_frame (st : AppState) (ev : Event) :
  match ev with
  | PageFetchSettled _ => True
  | _ => artworks (step st ev) = artworks st ∧ totalRecords (step st ev) = totalRecords st
  end
  ∧ match ev with
    | SelectionChange _ | TopNSettled _ => True
    | _ => selection (step st ev) = selection st
    end
  ∧ match ev with
    | InputChange _ | TopNSettled _ => True
    | _ => numToSelect (step st ev) = numToSelect st
    end
  ∧ match ev with
    | PanelToggle | TopNSettled _ => True
    | _ => isPanelOpen (step st ev) = isPanelOpen st
    end
  ∧ match ev with
    | SelectionChange _ | PanelToggle | InputChange _ => loading (step st ev) = loading st
    | _ => True
    end.
Proof. exact (step_keeps_cells st ev). Qed.

(** ** The displayed page stays defined *)

Lemma step_displayed_defined (st : AppState) (ev : Event) :
  has_data ev → is_Some (artworks st) → is_Some (artworks (step st ev)).
Proof.
  intros Hev Hst. event_cases st ev; try exact Hst; try exact Hev.
  - cbn. rewrite Hdisplayed. exact Hst.
  - by destruct Hst.
Qed.

Lemma handle_completes (st : AppState) (ev : Event) :
  is_Some (artworks st) → completion_of (handle ev st) = Normal ().
Proof.
  intros Hst. event_cases st ev; try reflexivity.
  by destruct Hst.
Qed.

(** X3.  As long as every parsed answer to a page request carries a [data]
    array, the displayed page is never [undefined]: the component can be
    rendered after every event, and no handler throws. *)
Theorem displayed_page_defined (evs : list Event) :
  Forall has_data evs →
  let st := run evs initialState in
  is_Some (artworks st)
  ∧ is_Some (render st)
  ∧ ∀ ev, completion_of (handle ev st) = Normal ().
Proof.
  intros Hevs.
  assert (H : ∀ st, is_Some (artworks st) → is_Some (artworks (run evs st))).
  { induction Hevs as [|ev evs Hev _ IH]; intros st Hst; [exact Hst|].
    cbn. apply IH. by apply step_displayed_defined. }
  specialize (H initialState (ltac:(by eexists))).
  cbn zeta. split; [exact H|]. split.
  - unfold render. destruct H as [displayed ->]. by eexists.
  - intros ev. by apply handle_completes.
Qed.

Lemma displayed_page_defined_witness :
  Forall has_data sampleEvents
  ∧ is_Some (render (run sampleEvents initialState)).
Proof.
  assert (H : Forall has_data sampleEvents).
  { repeat constructor. by eexists. }
  split; [exact H|].
  exact (proj1 (proj2 (displayed_page_defined sampleEvents H))).
Defined.

(** ** More on the ledger *)

Lemma filter_ext_elem {A} (P1 P2 : A → Prop)
    `{!∀ x, Decision (P1 x), !∀ x, Decision (P2 x)} (l : list A) :
  (∀ x, x ∈ l → (P1 x ↔ P2 x)) → filter P1 l = filter P2 l.
Proof.
  induction l as [|a l IH]; intros Hext; [done|].
  rewrite !filter_cons.
  rewrite IH by (intros x Hx; apply Hext; by right).
  pose proof (Hext a (ltac:(by left))) as Ha.
  repeat case_decide; tauto.
Qed.

Lemma selectedRows_ext (displayed : list Artwork.t) (S T : gset Z) :
  (∀ x, x ∈ ids_of displayed → (x ∈ S ↔ x ∈ T)) →
  selectedRows displayed S = selectedRows displayed T.
Proof.
  intros H. apply filter_ext_elem. intros a Ha. apply H.
  apply elem_of_ids_of. eauto.
Qed.

Lemma ids_of_selectedRows (displayed : list Artwork.t) (S : gset Z) :
  ids_of (selectedRows displayed S) = S ∩ ids_of displayed.
Proof.
  apply set_eq. intros x. rewrite elem_of_intersection, !elem_of_ids_of.
  unfold selectedRows. setoid_rewrite list_elem_of_filter. naive_solver.
Qed.

Lemma reconcile_on_page (pageIds newIds S : gset Z) (x : Z) :
  x ∈ pageIds → (x ∈ reconcile pageIds newIds S ↔ x ∈ newIds).
Proof.
  intros Hx. rewrite reconcile_eq.
  destruct (decide (x ∈ newIds)); set_solver.
Qed.

Lemma reconcile_off_page (pageIds newIds S : gset Z) (x : Z) :
  x ∉ pageIds → x ∉ newIds → (x ∈ reconcile pageIds newIds S ↔ x ∈ S).
Proof. intros Hx Hn. rewrite reconcile_eq. set_solver. Qed.

(** X5.  The table is a controlled component: after a selection change, the rows
    handed back to it as selected are the displayed rows whose identifier it
    has just reported, whatever the ledger held before. *)
Theorem selection_round_trip
    (st : AppState) (displayed newSelection : list Artwork.t) :
  artworks st = Some displayed →
  selectionProp (step st (SelectionChange newSelection))
  = Some (filter (fun a => Artwork.id a ∈ ids_of newSelection) displayed).
Proof.
  intros Hd. unfold step, handle. rewrite (onSelectionChange_run _ _ _ Hd).
  unfold selectionProp. cbn. rewrite Hd. cbn. f_equal.
  apply filter_ext_elem. intros a Ha. apply reconcile_on_page.
  apply elem_of_ids_of. eauto.
Qed.

Lemma selection_round_trip_witness :
  selectionProp (step sampleState (SelectionChange [art 13; art 11]))
  = Some [art 11; art 13].
Proof.
  rewrite (selection_round_trip sampleState (art <$> [11; 12; 13]) [art 13; art 11] eq_refl).
  vm_compute. reflexivity.
Defined.

(** X6.  Reporting the same selection twice is the same as reporting it once. *)
Theorem onSelectionChange_idempotent (st : AppState) (newSelection : list Artwork.t) :
  step (step st (SelectionChange newSelection)) (SelectionChange newSelection)
  = step st (SelectionChange newSelection).
Proof.
  unfold step, handle.
  destruct (artworks st) as [displayed|] eqn:Hd.
  - rewrite (onSelectionChange_run st _ _ Hd). cbn.
    rewrite (onSelectionChange_run _ displayed) by exact Hd. cbn.
    f_equal. rewrite !reconcile_eq. set_solver.
  - assert (H : onSelectionChange newSelection st = (Thrown TypeError, st, [])).
    { unfold onSelectionChange, mbind, M_bind, read. by rewrite Hd. }
    rewrite H. cbn. by rewrite H.
Qed.

Lemma step_SelectionChange (st : AppState) (displayed newSelection : list Artwork.t) :
  artworks st = Some displayed →
  step st (SelectionChange newSelection)
  = {| loading := loading st; artworks := artworks st; totalRecords := totalRecords st;
       selection := reconcile (ids_of displayed) (ids_of newSelection) (selection st);
       isPanelOpen := isPanelOpen st; numToSelect := numToSelect st;
       lazyState := lazyState st |}.
Proof. intros Hd. unfold step, handle. by rewrite (onSelectionChange_run _ _ _ Hd). Qed.

(** X7.  Unticking one selected row of the displayed page removes its identifier
    from the ledger and no other. *)
Theorem deselect_one_row (st : AppState) (displayed : list Artwork.t) (x : Z) :
  artworks st = Some displayed →
  x ∈ ids_of displayed →
  let remaining := filter (fun a => Artwork.id a ≠ x) (selectedRows displayed (selection st)) in
  selection (step st (SelectionChange remaining)) = selection st ∖ {[x]}.
Proof.
  intros Hd Hx remaining. rewrite (step_SelectionChange _ _ _ Hd). cbn.
  assert (HN : ∀ y, y ∈ ids_of remaining
                    ↔ y ≠ x ∧ y ∈ ids_of displayed ∧ y ∈ selection st).
  { intros y. subst remaining. rewrite !elem_of_ids_of. unfold selectedRows.
    setoid_rewrite list_elem_of_filter. split.
    - intros (b & [Hne Hb] & <-). apply list_elem_of_filter in Hb as [HS Hin]. eauto.
    - intros (Hne & (b & Hb & <-) & HS). exists b.
      split; [split; [done|]|done]. by apply list_elem_of_filter. }
  rewrite reconcile_eq. apply set_eq. intros y.
  rewrite elem_of_union, !elem_of_difference, HN, elem_of_singleton.
  destruct (decide (y = x)) as [->|]; [tauto|].
  destruct (decide (y ∈ ids_of displayed)); tauto.
Qed.

Lemma deselect_one_row_witness :
  selection (step sampleState (SelectionChange [art 11])) = {[ 1; 2; 11 ]}.
Proof.
  assert (Hx : 12 ∈ ids_of (art <$> [11; 12; 13])).
  { apply (bool_decide_unpack _). vm_compute. exact I. }
  etrans; [exact (deselect_one_row sampleState (art <$> [11; 12; 13]) 12 eq_refl Hx)|].
  apply (bool_decide_unpack _). vm_compute. exact I.
Defined.

(** X8.  Ticking one more row adds its identifier to the ledger and changes
    nothing else. *)
Theorem select_one_row (st : AppState) (displayed : list Artwork.t) (a : Artwork.t) :
  artworks st = Some displayed →
  selection (step st (SelectionChange (a :: selectedRows displayed (selection st))))
  = selection st ∪ {[Artwork.id a]}.
Proof.
  intros Hd. rewrite (step_SelectionChange _ _ _ Hd). cbn [selection].
  assert (HN : ids_of (a :: selectedRows displayed (selection st))
               = {[Artwork.id a]} ∪ (selection st ∩ ids_of displayed)).
  { rewrite <- ids_of_selectedRows. reflexivity. }
  rewrite reconcile_eq, HN. apply set_eq. intros y.
  destruct (decide (y ∈ ids_of displayed)); set_solver.
Qed.

Lemma select_one_row_witness :
  selection (step sampleState (SelectionChange (art 13 :: [art 11; art 12])))
  = {[ 1; 2; 11; 12; 13 ]}.
Proof.
  pose proof (select_one_row sampleState (art <$> [11; 12; 13]) (art 13) eq_refl) as H.
  etrans; [exact H|]. apply (bool_decide_unpack _). vm_compute. exact I.
Defined.

(** X9.  Selecting every displayed row adds the identifiers of the page to the
    ledger; clearing the selection removes the identifiers of the page and
    only those. *)
Theorem select_all_clear_all (st : AppState) (displayed : list Artwork.t) :
  artworks st = Some displayed →
  selection (step st (SelectionChange displayed)) = selection st ∪ ids_of displayed
  ∧ selection (step st (SelectionChange [])) = selection st ∖ ids_of displayed.
Proof.
  intros Hd. rewrite !(step_SelectionChange _ _ _ Hd). cbn [selection].
  rewrite !reconcile_eq. split; [set_solver|].
  change (ids_of []) with (∅ : gset Z). set_solver.
Qed.

Lemma select_all_clear_all_witness :
  selection (step sampleState (SelectionChange [])) = {[ 1; 2 ]}.
Proof.
  destruct (select_all_clear_all sampleState (art <$> [11; 12; 13]) eq_refl) as [_ H].
  etrans; [exact H|]. apply (bool_decide_unpack _). vm_compute. exact I.
Defined.

(** X10.  The running total after a selection change on the displayed page: the
    identifiers of the page that were selected are replaced by the reported
    ones, so the new total plus the number of page identifiers selected
    before equals the old total plus the number of reported identifiers. *)
Theorem totalSelected_after_selection_change
    (st : AppState) (displayed newSelection : list Artwork.t) :
  artworks st = Some displayed →
  ids_of newSelection ⊆ ids_of displayed →
  (totalSelected (step st (SelectionChange newSelection))
   + size (selection st ∩ ids_of displayed)
   = totalSelected st + size (ids_of newSelection))%nat.
Proof.
  intros Hd Hsub. rewrite (step_SelectionChange _ _ _ Hd).
  unfold totalSelected. cbn [selection].
  set (S := selection st). set (P := ids_of displayed). set (N := ids_of newSelection).
  fold P N in Hsub.
  assert (HS' : reconcile P N S = (S ∖ P) ∪ N).
  { rewrite reconcile_eq. apply set_eq. intros y.
    destruct (decide (y ∈ N)); set_solver. }
  rewrite HS', size_union by set_solver.
  rewrite size_difference_alt.
  assert (size (S ∩ P) ≤ size S)%nat by (apply subseteq_size; set_solver).
  lia.
Qed.

Lemma totalSelected_after_selection_change_witness :
  (totalSelected (step sampleState (SelectionChange [art 13])) + 2 = 4 + 1)%nat.
Proof.
  pose proof (totalSelected_after_selection_change sampleState
                (art <$> [11; 12; 13]) [art 13] eq_refl) as H.
  etrans; [|etrans; [apply H|]].
  - f_equal.
  - apply (bool_decide_unpack _). vm_compute. exact I.
  - reflexivity.
Defined.

(** ** Across pages *)

Lemma step_PageChange (st : AppState) (event : PaginatorPageChangeEvent) :
  step st (PageChange event)
  = {| loading := true; artworks := artworks st; totalRecords := totalRecords st;
       selection := selection st; isPanelOpen := isPanelOpen st;
       numToSelect := numToSelect st;
       lazyState := {| first := ev_first event; rows := ev_rows event;
                       page := ev_page event;
                       sortField := sortField (lazyState st);
                       sortOrder := sortOrder (lazyState st) |} |}.
Proof. reflexivity. Qed.

Lemma step_PageFetchSettled_complete (st : AppState) (records : list Artwork.t) (n : Z) :
  step st (PageFetchSettled (complete_page records n))
  = {| loading := false; artworks := Some records; totalRecords := n;
       selection := selection st; isPanelOpen := isPanelOpen st;
       numToSelect := numToSelect st; lazyState := lazyState st |}.
Proof. reflexivity. Qed.

(** X11.  Selections survive navigation.  Rows are selected on page A; the user
    moves to page B, whose identifiers are disjoint from those of A, changes
    the selection there, and comes back: the rows of A handed to the table
    as selected are those selected at the start. *)
Theorem cross_page_persistence
    (st : AppState) (pageA pageB selA selB : list Artwork.t)
    (toB toA : PaginatorPageChangeEvent) (nB nA : Z) :
  artworks st = Some pageA →
  ids_of pageA ## ids_of pageB →
  ids_of selB ⊆ ids_of pageB →
  selectionProp
    (run [SelectionChange selA;
          PageChange toB; PageFetchSettled (complete_page pageB nB);
          SelectionChange selB;
          PageChange toA; PageFetchSettled (complete_page pageA nA)] st)
  = Some (filter (fun a => Artwork.id a ∈ ids_of selA) pageA).
Proof.
  intros Hd Hdisj Hsub. unfold run. cbn [fold_left].
  rewrite (step_SelectionChange st pageA selA Hd).
  rewrite step_PageChange, step_PageFetchSettled_complete.
  rewrite (step_SelectionChange _ pageB selB) by reflexivity.
  rewrite step_PageChange, step_PageFetchSettled_complete.
  unfold selectionProp. cbn [artworks selection fmap option_fmap option_map]. f_equal.
  apply filter_ext_elem. intros a Ha.
  assert (Hx : Artwork.id a ∈ ids_of pageA) by (apply elem_of_ids_of; eauto).
  rewrite reconcile_off_page by set_solver.
  by apply reconcile_on_page.
Qed.

Lemma cross_page_persistence_witness :
  selectionProp
    (run [SelectionChange [art 13];
          PageChange {| ev_first := 20; ev_rows := 10; ev_page := 2; ev_pageCount := 10 |};
          PageFetchSettled (complete_page (art <$> [21; 22]) 100);
          SelectionChange [art 22];
          PageChange {| ev_first := 10; ev_rows := 10; ev_page := 1; ev_pageCount := 10 |};
          PageFetchSettled (complete_page (art <$> [11; 12; 13]) 100)] sampleState)
  = Some [art 13].
Proof.
  etrans; [apply (cross_page_persistence sampleState (art <$> [11; 12; 13])
                    (art <$> [21; 22]) [art 13] [art 22])|].
  - reflexivity.
  - apply (bool_decide_unpack _). vm_compute. exact I.
  - apply (bool_decide_unpack _). vm_compute. exact I.
  - vm_compute. reflexivity.
Defined.

(** X12.  Answers are applied in the order in which they settle, and nothing ties
    an answer to the page state: when the answer to the first of two page
    changes settles last, its records and total are displayed while the
    page state is that of the second page change. *)
Theorem last_resolved_wins
    (st : AppState) (e1 e2 : PaginatorPageChangeEvent)
    (records1 records2 : list Artwork.t) (n1 n2 : Z) :
  let st' := run [PageChange e1; PageChange e2;
                  PageFetchSettled (complete_page records2 n2);
                  PageFetchSettled (complete_page records1 n1)] st in
  artworks st' = Some records1
  ∧ totalRecords st' = n1
  ∧ first (lazyState st') = ev_first e2
  ∧ rows (lazyState st') = ev_rows e2
  ∧ page (lazyState st') = ev_page e2
  ∧ loading st' = false.
Proof. cbn zeta. repeat split. Qed.

(** ** The bulk workflow *)

Lemma step_TopNSettled (st : AppState) (outcome : FetchOutcome) :
  step st (TopNSettled outcome)
  = {| loading := false; artworks := artworks st; totalRecords := totalRecords st;
       selection := selection st ∪ response_ids outcome;
       isPanelOpen := false; numToSelect := []; lazyState := lazyState st |}.
Proof.
  destruct outcome as [|[|[[records|] pg]]]; unfold step, handle, response_ids;
    cbn [data]; rewrite ?union_empty_r_L; try reflexivity.
  rewrite handleSelectTopN_settle_data. cbn. by rewrite spread_union_eq.
Qed.



(** X14.  Two bulk answers may settle in either order, and an answer that is
    applied twice counts once: the resulting state is the same. *)
Theorem bulk_settle_commutes (st : AppState) (o1 o2 : FetchOutcome) :
  run [TopNSettled o1; TopNSettled o2] st = run [TopNSettled o2; TopNSettled o1] st
  ∧ run [TopNSettled o1; TopNSettled o1] st = run [TopNSettled o1] st.
Proof.
  unfold run. cbn [fold_left]. rewrite !step_TopNSettled. cbn.
  split; f_equal; set_solver.
Qed.

Lemma size_list_to_set_le (l : list Z) : (size (list_to_set l : gset Z) ≤ length l)%nat.
Proof.
  induction l as [|x l IH]; [by rewrite list_to_set_nil, size_empty|].
  rewrite list_to_set_cons, size_union_alt, size_singleton. cbn.
  assert (size (list_to_set l ∖ {[x]} : gset Z) ≤ size (list_to_set l : gset Z))%nat
    by (apply subseteq_size; set_solver).
  lia.
Qed.

(** X15.  A bulk answer never lowers the running total, and raises it by at most
    the number of records it carries; the raise is exactly the number of
    identifiers of the answer that were not selected yet. *)
Theorem totalSelected_bulk_bounds (st : AppState) (records : list Artwork.t) :
  let st' := step st (TopNSettled (ids_response records)) in
  (totalSelected st ≤ totalSelected st')%nat
  ∧ (totalSelected st' ≤ totalSelected st + length records)%nat
  ∧ (totalSelected st' = totalSelected st + size (ids_of records ∖ selection st))%nat.
Proof.
  cbn zeta. rewrite step_TopNSettled. unfold totalSelected. cbn [selection response_ids data ids_response].
  rewrite size_union_alt.
  assert (size (ids_of records ∖ selection st) ≤ size (ids_of records))%nat
    by (apply subseteq_size; set_solver).
  assert (size (ids_of records) ≤ length records)%nat.
  { unfold ids_of. etrans; [apply size_list_to_set_le|]. by rewrite length_fmap. }
  lia.
Qed.

(** X16.  The label counts the ledger of all pages: it is at least the number of
    distinct identifiers marked on the displayed page, and equal to it
    exactly when every selected identifier is on the displayed page. *)
Theorem total_selected_label_bound (st : AppState) (view : View) :
  render st = Some view →
  (size (ids_of (table_selection view)) ≤ total_selected_label view)%nat
  ∧ (size (ids_of (table_selection view)) = total_selected_label view
     ↔ selection st ⊆ ids_of (table_value view)).
Proof.
  unfold render. destruct (artworks st) as [displayed|]; [|discriminate].
  intros [= <-]. cbn [table_selection total_selected_label table_value].
  rewrite ids_of_selectedRows.
  assert (Hsub : selection st ∩ ids_of displayed ⊆ selection st) by set_solver.
  split; [by apply subseteq_size|]. split.
  - intros Hsize x Hx.
    destruct (decide (x ∈ ids_of displayed)) as [|Hnot]; [done|].
    assert (selection st ∩ ids_of displayed ⊂ selection st) as Hlt%subset_size
      by set_solver.
    lia.
  - intros Hall. f_equal. set_solver.
Qed.

Lemma total_selected_label_bound_witness :
  ∃ view, render sampleState = Some view
          ∧ (size (ids_of (table_selection view)) ≤ total_selected_label view)%nat.
Proof.
  eexists. split; [reflexivity|].
  exact (proj1 (total_selected_label_bound sampleState _ eq_refl)).
Defined.

(** ** Numbers as text *)

Section Decimal.
Import Js ParseInt.

(** X18.  The text of the date range determines both dates: the texts of
    two rows (with dates in the range where the text is the plain decimal
    numeral) are equal exactly when the rows have the same start and the
    same end.  The separator keeps "12" to "3" apart from "1" to "23". *)
Theorem dateBodyTemplate_determines_dates (a b : Artwork.t) (ta tb : JsString) :
  dateBodyTemplate a = Some ta →
  dateBodyTemplate b = Some tb →
  ta = tb ↔ Artwork.date_start a = Artwork.date_start b
            ∧ Artwork.date_end a = Artwork.date_end b.
Proof.
  unfold dateBodyTemplate, number_to_string.
  repeat case_bool_decide; try discriminate.
  intros [= <-] [= <-]. split.
  - intros Hab.
    assert (Hstart : Artwork.date_start a = Artwork.date_start b).
    { pose proof (f_equal parseInt10 Hab) as Hp.
      rewrite !parseInt10_of_decimal in Hp by reflexivity. congruence. }
    split; [exact Hstart|].
    rewrite Hstart in Hab. apply app_inv_head in Hab.
    injection Hab as Hab.
    apply of_string_inj in Hab. by apply (inj pretty) in Hab.
  - intros [-> ->]. reflexivity.
Qed.

Lemma dateBodyTemplate_determines_dates_witness :
  ∃ ta tb, dateBodyTemplate (dated 1 12 3) = Some ta
           ∧ dateBodyTemplate (dated 2 1 23) = Some tb
           ∧ ta ≠ tb.
Proof.
  eexists _, _. split; [reflexivity|]. split; [reflexivity|].
  intros Heq.
  apply (dateBodyTemplate_determines_dates (dated 1 12 3) (dated 2 1 23) _ _
           eq_refl eq_refl) in Heq.
  destruct Heq as [Heq _]. discriminate Heq.
Defined.

(** X19.  An input whose first character after the white space is a minus sign is
    always rejected: no request is issued and the state is as it was. *)
Theorem minus_sign_rejected (st : AppState) (white rest : JsString) :
  Forall (fun c => is_white_space c = true) white →
  numToSelect st = white ++ 0x2D%N :: rest →
  handleSelectTopN_submit st = (Normal None, st, [PreventDefault; invalidAlert]).
Proof.
  intros Hwhite Hinput.
  destruct (parseInt10 (numToSelect st)) as [n|] eqn:Hparse;
    [|by apply handleSelectTopN_submit_NaN].
  apply (handleSelectTopN_submit_nonpositive st n Hparse).
  rewrite Hinput in Hparse. unfold parseInt10 in Hparse.
  rewrite ParseIntFacts.trim_start_app in Hparse by done.
  change (0x2D =? 0x2D)%N with true in Hparse. rewrite orb_true_r in Hparse.
  destruct (ParseIntFacts.digit_prefix_split rest) as (tail & _ & Hdig & _).
  destruct (digit_prefix rest) as [|d ds]; [discriminate|].
  injection Hparse as <-.
  pose proof (ParseIntFacts.digits_value_nonneg _ Hdig). lia.
Qed.

Lemma minus_sign_rejected_witness :
  requests (effects_of (handleSelectTopN_submit (withInput " -5"))) = [].
Proof.
  rewrite (minus_sign_rejected (withInput " -5") [0x20%N] (of_string "5")).
  - reflexivity.
  - repeat constructor.
  - reflexivity.
Defined.

End Decimal.

(** ** Invariants of runs *)

(** X20.  The page request asks for the slice the paginator shows: when the event
    of a page change is consistent, the request that follows has
    [(page - 1) * limit] equal to the offset of the first visible record. *)
Theorem request_matches_offset (st : AppState) (event : PaginatorPageChangeEvent) :
  ev_page event * ev_rows event = ev_first event →
  ∃ request,
    requests (effects_of (handle (PageChange event) st)) = [request]
    ∧ (query_page request - 1) * query_limit request = first (lazyState (step st (PageChange event)))
    ∧ query_limit request = rows (lazyState (step st (PageChange event))).
Proof.
  intros Hev. eexists. split; [reflexivity|].
  rewrite step_PageChange. cbn. split; [|reflexivity].
  unfold apiPage, truthy. cbn.
  destruct (Z.eqb_spec (ev_page event) 0) as [Hp|Hp]; [rewrite Hp in Hev|]; cbn; lia.
Qed.

Lemma request_matches_offset_witness :
  ∃ request,
    requests (effects_of (handle (PageChange {| ev_first := 40; ev_rows := 20;
                                                 ev_page := 2; ev_pageCount := 5 |})
                            sampleState)) = [request]
    ∧ (query_page request - 1) * query_limit request = 40.
Proof.
  destruct (request_matches_offset sampleState
              {| ev_first := 40; ev_rows := 20; ev_page := 2; ev_pageCount := 5 |}
              eq_refl) as (request & H1 & H2 & _).
  exists request. split; [exact H1 | exact H2].
Defined.

Lemma page_and_total_from_mono (evs evs' : list Event) (st : AppState) :
  page_and_total_from evs st → page_and_total_from (evs ++ evs') st.
Proof.
  intros [H | (records & n & Hin & H)]; [by left|].
  right. exists records, n. split; [|done]. apply elem_of_app. by left.
Qed.

Lemma step_page_and_total (seen : list Event) (st : AppState) (ev : Event) :
  page_answer_ok ev →
  page_and_total_from seen st →
  page_and_total_from (seen ++ [ev]) (step st ev).
Proof.
  intros Hok Hst.
  assert (Hkeep : artworks (step st ev) = artworks st
                  ∧ totalRecords (step st ev) = totalRecords st
                  → page_and_total_from (seen ++ [ev]) (step st ev)).
  { intros [Ha Ht]. apply page_and_total_from_mono.
    unfold page_and_total_from. by rewrite Ha, Ht. }
  destruct ev as [event | outcome | newSelection | | value | | outcome];
    try (apply Hkeep;
         lazymatch goal with |- context [step st ?e] => exact (proj1 (step_keeps_cells st e)) end).
  destruct Hok as [Hfailed | (records & n & ->)].
  - apply Hkeep. unfold step, handle.
    by rewrite (fetchArtworks_settle_failed st outcome Hfailed).
  - right. exists records, n. split; [|done].
    apply elem_of_app. right. by apply list_elem_of_singleton.
Qed.

(** X21.  As long as every page answer either fails or carries both [data] and
    [pagination], the displayed page and the total always belong together:
    they are the initial ones, or the records and the total of one and the
    same answer. *)
Theorem page_and_total_atomic (evs : list Event) :
  Forall page_answer_ok evs →
  page_and_total_from evs (run evs initialState).
Proof.
  intros Hevs.
  assert (H : ∀ seen st, page_and_total_from seen st →
                         page_and_total_from (seen ++ evs) (run evs st)).
  { induction Hevs as [|ev evs Hev _ IH]; intros seen st Hst.
    - by rewrite app_nil_r.
    - cbn. rewrite (cons_middle ev seen evs), app_assoc.
      apply IH. by apply step_page_and_total. }
  apply (H [] initialState). by left.
Qed.

Lemma page_and_total_atomic_witness :
  Forall page_answer_ok sampleEvents
  ∧ page_and_total_from sampleEvents (run sampleEvents initialState).
Proof.
  assert (H : Forall page_answer_ok sampleEvents).
  { constructor; [exact I|]. constructor; [by left|].
    constructor; [exact I|]. constructor; [exact I|].
    constructor; [|constructor]. right. by eexists _, _. }
  split; [exact H | exact (page_and_total_atomic sampleEvents H)].
Defined.

Lemma id_introduced_by_mono (evs evs' : list Event) (x : Z) :
  id_introduced_by evs x → id_introduced_by (evs ++ evs') x.
Proof.
  intros (ev & Hin & H). exists ev. split; [|done]. apply elem_of_app. by left.
Qed.

Lemma step_ledger_provenance (seen : list Event) (st : AppState) (ev : Event) :
  (∀ x, x ∈ selection st → id_introduced_by seen x) →
  ∀ x, x ∈ selection (step st ev) → id_introduced_by (seen ++ [ev]) x.
Proof.
  intros Hst x Hx.
  assert (Hlast : ∀ e, e = ev → e ∈ seen ++ [ev]).
  { intros e ->. apply elem_of_app. right. by apply list_elem_of_singleton. }
  assert (Hkeep : selection (step st ev) = selection st →
                  id_introduced_by (seen ++ [ev]) x).
  { intros Heq. apply id_introduced_by_mono, Hst. by rewrite <- Heq. }
  destruct ev as [event | outcome | newSelection | | value | | outcome];
    try (apply Hkeep;
         lazymatch goal with
         | |- context [step st ?e] => exact (proj1 (proj2 (step_keeps_cells st e)))
         end).
  - destruct (artworks st) as [displayed|] eqn:Hd.
    + rewrite (step_SelectionChange _ _ _ Hd) in Hx. cbn [selection] in Hx.
      rewrite reconcile_eq in Hx.
      apply elem_of_union in Hx as [Hx | Hx].
      * apply id_introduced_by_mono, Hst. set_solver.
      * exists (SelectionChange newSelection). split; [by apply Hlast | exact Hx].
    + apply Hkeep. unfold step, handle, onSelectionChange, mbind, M_bind, read.
      by rewrite Hd.
  - rewrite step_TopNSettled in Hx. cbn [selection] in Hx.
    apply elem_of_union in Hx as [Hx | Hx].
    + by apply id_introduced_by_mono, Hst.
    + exists (TopNSettled outcome). split; [by apply Hlast | exact Hx].
Qed.

(** X22.  The ledger never holds an identifier of its own making: after any run
    from the initial state, every selected identifier was reported by a
    selection change or returned by a bulk answer of that run. *)
Theorem ledger_provenance (evs : list Event) (x : Z) :
  x ∈ selection (run evs initialState) → id_introduced_by evs x.
Proof.
  assert (H : ∀ evs seen st,
            (∀ y, y ∈ selection st → id_introduced_by seen y) →
            ∀ y, y ∈ selection (run evs st) → id_introduced_by (seen ++ evs) y).
  { clear. induction evs as [|ev evs IH]; intros seen st Hst y Hy.
    - rewrite app_nil_r. by apply Hst.
    - cbn in Hy. rewrite (cons_middle ev seen evs), app_assoc.
      apply (IH (seen ++ [ev]) (step st ev)); [|exact Hy].
      by apply step_ledger_provenance. }
  apply (H evs [] initialState). intros y Hy. cbn in Hy. set_solver.
Qed.

Lemma ledger_provenance_witness :
  id_introduced_by sampleEvents 3.
Proof.
  apply ledger_provenance. apply (bool_decide_unpack _). vm_compute. exact I.
Defined.
